(** * A model of the Prometheus text exposition encoder ([src/lib.rs])

    The encoder writes metric samples into a byte sink.  [f64] values are
    Rocq's primitive binary64 floats, so [+=] and [==] on them are the IEEE
    operations of the source.  Strings are byte strings: [name.as_bytes()]
    is the string itself, and the label escaping of [encode_labels], which
    walks [chars()] and only rewrites three ASCII characters, is modelled on
    the UTF-8 bytes (an ASCII byte never occurs inside the encoding of a
    non-ASCII character, so the two walks copy the same bytes).

    A [panic!] is the [Panicked] outcome.  The sink is a [Vec<u8>], whose
    writes never fail, so no I/O error is modelled.  Rust's own [Display]
    rendering of [f64] (used by [{}] on a float and by [to_string]) is not
    code of this repository: it is the section parameter [display_f64]. *)

From Stdlib Require Import Bool ZArith Lia List Ascii String.
From Stdlib Require Import Floats.
From Stdlib Require Import Numbers.DecimalString.
Import ListNotations.
Open Scope string_scope.

(** ** Characters and strings *)

Definition backslash : ascii := "092"%char.
Definition newline : ascii := "010"%char.
Definition quote : ascii := "034"%char.

(** [buf.push(c)] *)
Definition push (buf : string) (c : ascii) : string := buf ++ String c EmptyString.

(** [writeln!] terminates its text with a newline. *)
Definition nl : string := String newline EmptyString.
Definition dq : string := String quote EmptyString.

(** Rust's [Display] for [i64]: the decimal digits with a leading [-]. *)
Definition display_i64 (x : Z) : string := NilEmpty.string_of_int (Z.to_int x).

(** ** Outcomes: returning or panicking *)

Inductive outcome (A : Type) : Type :=
| Panicked : outcome A
| Returned : A -> outcome A.
Arguments Panicked {A}.
Arguments Returned {A} _.

Definition obind {A B} (m : outcome A) (k : A -> outcome B) : outcome B :=
  match m with
  | Panicked => Panicked
  | Returned a => k a
  end.

(** ** [validate_prometheus_name] *)

Definition is_ascii_alphabetic (b : ascii) : bool :=
  let n := nat_of_ascii b in
  (Nat.leb 65 n && Nat.leb n 90) || (Nat.leb 97 n && Nat.leb n 122).

Definition is_ascii_digit (b : ascii) : bool :=
  let n := nat_of_ascii b in Nat.leb 48 n && Nat.leb n 57.

Definition is_ascii_alphanumeric (b : ascii) : bool :=
  is_ascii_alphabetic b || is_ascii_digit b.

Definition validate_prometheus_name (name : string) : outcome unit :=
  match name with
  | EmptyString => Panicked (* "Empty names are not allowed" *)
  | String b0 rest =>
      if negb (is_ascii_alphabetic b0 || Ascii.eqb b0 "_")
         || negb (forallb (fun c => is_ascii_alphanumeric c || Ascii.eqb c "_")
                          (list_ascii_of_string rest))
      then Panicked
      else Returned tt
  end.

(** ** [MetricsEncoder::encode_labels] *)

(** The inner [for c in v.chars()] loop with its [match]. *)
Fixpoint push_escaped (buf : string) (v : string) : string :=
  match v with
  | EmptyString => buf
  | String c v' =>
      let buf :=
        if Ascii.eqb c backslash then push (push buf backslash) backslash
        else if Ascii.eqb c newline then push (push buf backslash) "n"
        else if Ascii.eqb c quote then push (push buf backslash) quote
        else push buf c in
      push_escaped buf v'
  end.

(** The outer [for (i, (k, v)) in labels.enumerate()] loop. *)
Fixpoint encode_labels_loop (i : nat) (buf : string)
    (labels : list (string * string)) : outcome string :=
  match labels with
  | [] => Returned buf
  | (k, v) :: rest =>
      obind (validate_prometheus_name k) (fun _ =>
      let buf := if Nat.ltb 0 i then push buf "," else buf in
      let buf := buf ++ k in
      let buf := push buf "=" in
      let buf := push buf quote in
      let buf := push_escaped buf v in
      let buf := push buf quote in
      encode_labels_loop (S i) buf rest)
  end.

Definition encode_labels (labels : list (string * string)) : outcome string :=
  encode_labels_loop 0 EmptyString labels.



(** ** The encoder state and its monad *)

Record MetricsEncoder : Type := mkEncoder {
  writer : string;
  now_millis : Z
}.

(** [MetricsEncoder::new] and [MetricsEncoder::into_inner]. *)
Definition new (w : string) (now : Z) : MetricsEncoder := mkEncoder w now.
Definition into_inner (e : MetricsEncoder) : string := writer e.

(** A computation holding [&mut self]: it may panic. *)
Definition M (A : Type) : Type := MetricsEncoder -> outcome (A * MetricsEncoder).

Definition ret {A} (a : A) : M A := fun e => Returned (a, e).
Definition bind {A B} (m : M A) (k : A -> M B) : M B :=
  fun e => match m e with
           | Panicked => Panicked
           | Returned (a, e') => k a e'
           end.
Definition lift {A} (o : outcome A) : M A :=
  fun e => match o with
           | Panicked => Panicked
           | Returned a => Returned (a, e)
           end.
Definition get : M MetricsEncoder := fun e => Returned (e, e).

(** [writeln!(self.writer, ...)] on a [Vec<u8>]. *)
Definition writeln (s : string) : M unit :=
  fun e => Returned (tt, mkEncoder (writer e ++ s ++ nl) (now_millis e)).

Declare Scope enc_scope.
Delimit Scope enc_scope with enc.
Notation "x <- m ;; k" := (bind m (fun x => k))
  (at level 61, m at next level, right associativity) : enc_scope.
Notation "m ;; k" := (bind m (fun _ : unit => k))
  (at level 61, right associativity) : enc_scope.
Open Scope enc_scope.

(** [labels.is_empty()] *)
Definition is_empty {A} (l : list A) : bool :=
  match l with [] => true | _ => false end.

Section Encoder.

(** Rust's [impl Display for f64]: the text of [format!("{}", x)] and of
    [x.to_string()]. *)
Variable display_f64 : float -> string.

(** ** [FormattedValue] *)

Definition FormattedValue (value : float) : string :=
  if PrimFloat.is_nan value then "NaN"
  else if (value =? infinity)%float then "+Inf"
  else if (value =? neg_infinity)%float then "-Inf"
  else display_f64 value.

(** ** Builders.  The [encoder: &mut MetricsEncoder] field is the state of [M]. *)

Record LabeledMetricsBuilder : Type := mkMetricsBuilder { metrics_name : string }.
Record LabeledHistogramBuilder : Type := mkHistogramBuilder { histogram_name : string }.

(** ** [MetricsEncoder] methods *)

Definition encode_header (name help typ : string) : M unit :=
  writeln ("# HELP " ++ name ++ " " ++ help) ;;
  writeln ("# TYPE " ++ name ++ " " ++ typ).

Definition encode_single_value (typ name : string) (value : float) (help : string) : M unit :=
  lift (validate_prometheus_name name) ;;
  encode_header name help typ ;;
  e <- get ;;
  writeln (name ++ " " ++ FormattedValue value ++ " " ++ display_i64 (now_millis e)).

Definition encode_counter (name : string) (value : float) (help : string) : M unit :=
  encode_single_value "counter" name value help.

Definition encode_gauge (name : string) (value : float) (help : string) : M unit :=
  encode_single_value "gauge" name value help.

Definition counter_vec (name help : string) : M LabeledMetricsBuilder :=
  lift (validate_prometheus_name name) ;;
  encode_header name help "counter" ;;
  ret (mkMetricsBuilder name).

Definition gauge_vec (name help : string) : M LabeledMetricsBuilder :=
  lift (validate_prometheus_name name) ;;
  encode_header name help "gauge" ;;
  ret (mkMetricsBuilder name).

Definition encode_value_with_labels (name : string)
    (label_values : list (string * string)) (value : float) : M unit :=
  ls <- lift (encode_labels label_values) ;;
  e <- get ;;
  writeln (name ++ "{" ++ ls ++ "} " ++ FormattedValue value ++ " "
           ++ display_i64 (now_millis e)).

(** [LabeledMetricsBuilder::value] *)
Definition value (self : LabeledMetricsBuilder) (labels : list (string * string))
    (v : float) : M LabeledMetricsBuilder :=
  encode_value_with_labels (metrics_name self) labels v ;;
  ret self.

(** [for (label, _) in labels.iter() { validate_prometheus_name(label); }] *)
Fixpoint validate_labels (labels : list (string * string)) : M unit :=
  match labels with
  | [] => ret tt
  | (label, _) :: rest => lift (validate_prometheus_name label) ;; validate_labels rest
  end.

(** One bucket line: [labels.iter().chain(once(&("le", le)))]. *)
Definition write_bucket (name : string) (labels : list (string * string))
    (le : string) (total : float) : M unit :=
  ls <- lift (encode_labels (labels ++ [("le", le)])) ;;
  e <- get ;;
  writeln (name ++ "_bucket{" ++ ls ++ "} " ++ display_f64 total ++ " "
           ++ display_i64 (now_millis e)).

(** The loop [for (bucket, v) in buckets], threading [total] and
    [saw_infinity]. *)
Fixpoint histogram_buckets (name : string) (labels : list (string * string))
    (buckets : list (float * float)) (total : float) (saw_infinity : bool)
    : M (float * bool) :=
  match buckets with
  | [] => ret (total, saw_infinity)
  | (bucket, v) :: rest =>
      let total := (total + v)%float in
      if (bucket =? infinity)%float then
        write_bucket name labels "+Inf" total ;;
        histogram_buckets name labels rest total true
      else
        let bucket_str := display_f64 bucket in
        write_bucket name labels bucket_str total ;;
        histogram_buckets name labels rest total saw_infinity
  end.

(** [LabeledHistogramBuilder::histogram] *)
Definition histogram (self : LabeledHistogramBuilder) (labels : list (string * string))
    (buckets : list (float * float)) (sum : float) : M LabeledHistogramBuilder :=
  let name := histogram_name self in
  validate_labels labels ;;
  r <- histogram_buckets name labels buckets 0%float false ;;
  let (total, saw_infinity) := r in
  (if negb saw_infinity then write_bucket name labels "+Inf" total else ret tt) ;;
  (if is_empty labels then
     e <- get ;;
     writeln (name ++ "_sum " ++ FormattedValue sum ++ " " ++ display_i64 (now_millis e)) ;;
     e <- get ;;
     writeln (name ++ "_count " ++ FormattedValue total ++ " " ++ display_i64 (now_millis e))
   else
     ls <- lift (encode_labels labels) ;;
     e <- get ;;
     writeln (name ++ "_sum{" ++ ls ++ "} " ++ FormattedValue sum ++ " "
              ++ display_i64 (now_millis e)) ;;
     ls <- lift (encode_labels labels) ;;
     e <- get ;;
     writeln (name ++ "_count{" ++ ls ++ "} " ++ FormattedValue total ++ " "
              ++ display_i64 (now_millis e))) ;;
  ret self.

Definition histogram_vec (name help : string) : M LabeledHistogramBuilder :=
  lift (validate_prometheus_name name) ;;
  encode_header name help "histogram" ;;
  ret (mkHistogramBuilder name).

Definition encode_histogram (name : string) (buckets : list (float * float))
    (sum : float) (help : string) : M unit :=
  b <- histogram_vec name help ;;
  _ <- histogram b [] buckets sum ;;
  ret tt.

(** ** Client calls: one encoding pass over a list of metric families *)

Inductive EncodeCall : Type :=
| CallCounter (name : string) (v : float) (help : string)
| CallGauge (name : string) (v : float) (help : string)
| CallHistogram (name : string) (buckets : list (float * float)) (sum : float) (help : string)
| CallCounterVec (name help : string) (obs : list (list (string * string) * float))
| CallGaugeVec (name help : string) (obs : list (list (string * string) * float))
| CallHistogramVec (name help : string)
    (obs : list (list (string * string) * list (float * float) * float)).

(** [builder.value(..)?.value(..)?...] *)
Fixpoint values (b : LabeledMetricsBuilder) (obs : list (list (string * string) * float))
    : M LabeledMetricsBuilder :=
  match obs with
  | [] => ret b
  | (labels, v) :: rest => b' <- value b labels v ;; values b' rest
  end.

(** [builder.histogram(..)?.histogram(..)?...] *)
Fixpoint histograms (b : LabeledHistogramBuilder)
    (obs : list (list (string * string) * list (float * float) * float))
    : M LabeledHistogramBuilder :=
  match obs with
  | [] => ret b
  | (labels, buckets, sum) :: rest => b' <- histogram b labels buckets sum ;; histograms b' rest
  end.

Definition run_call (c : EncodeCall) : M unit :=
  match c with
  | CallCounter name v help => encode_counter name v help
  | CallGauge name v help => encode_gauge name v help
  | CallHistogram name buckets sum help => encode_histogram name buckets sum help
  | CallCounterVec name help obs => b <- counter_vec name help ;; _ <- values b obs ;; ret tt
  | CallGaugeVec name help obs => b <- gauge_vec name help ;; _ <- values b obs ;; ret tt
  | CallHistogramVec name help obs =>
      b <- histogram_vec name help ;; _ <- histograms b obs ;; ret tt
  end.

Fixpoint run_pass (calls : list EncodeCall) : M unit :=
  match calls with
  | [] => ret tt
  | c :: rest => run_call c ;; run_pass rest
  end.

(** ** The text the encoder is expected to produce, following the spec *)

(** Label value escaping, character by character (spec 4.3). *)
Definition escape_char (c : ascii) : string :=
  if Ascii.eqb c backslash then String backslash (String backslash EmptyString)
  else if Ascii.eqb c newline then String backslash "n"
  else if Ascii.eqb c quote then String backslash dq
  else String c EmptyString.

Fixpoint escape_label_value (v : string) : string :=
  match v with
  | EmptyString => EmptyString
  | String c v' => escape_char c ++ escape_label_value v'
  end.

(** The exposition format's un-escaping of a label value: a backslash
    followed by a backslash, by [n] or by a double quote stands for a
    backslash, a newline or a double quote; any other backslash sequence is
    malformed. *)
Fixpoint unescape_label_value (s : string) : option string :=
  match s with
  | EmptyString => Some EmptyString
  | String c rest =>
      if Ascii.eqb c backslash then
        match rest with
        | EmptyString => None
        | String d rest' =>
            let decoded :=
              if Ascii.eqb d backslash then Some backslash
              else if Ascii.eqb d "n" then Some newline
              else if Ascii.eqb d quote then Some quote
              else None in
            match decoded, unescape_label_value rest' with
            | Some o, Some r => Some (String o r)
            | _, _ => None
            end
        end
      else option_map (String c) (unescape_label_value rest)
  end.

(** The name pattern [^[A-Za-z_][A-Za-z0-9_]*$] (spec 4.2). *)
Definition in_range (lo hi c : ascii) : bool :=
  Nat.leb (nat_of_ascii lo) (nat_of_ascii c) && Nat.leb (nat_of_ascii c) (nat_of_ascii hi).

Definition name_first_class (c : ascii) : bool :=
  in_range "A" "Z" c || in_range "a" "z" c || Ascii.eqb c "_".

Definition name_rest_class (c : ascii) : bool :=
  in_range "A" "Z" c || in_range "a" "z" c || in_range "0" "9" c || Ascii.eqb c "_".

Fixpoint name_rest_star (s : string) : bool :=
  match s with
  | EmptyString => true
  | String c s' => name_rest_class c && name_rest_star s'
  end.

Definition matches_name_pattern (s : string) : bool :=
  match s with
  | EmptyString => false
  | String c s' => name_first_class c && name_rest_star s'
  end.

Definition valid_label_keys (labels : list (string * string)) : bool :=
  forallb (fun kv => matches_name_pattern (fst kv)) labels.

(** [k1="v1",k2="v2",...], pairs in the given order. *)
Definition render_label (kv : string * string) : string :=
  fst kv ++ "=" ++ dq ++ escape_label_value (snd kv) ++ dq.

Definition render_labels (labels : list (string * string)) : string :=
  String.concat "," (map render_label labels).

(** Lines joined by [writeln!]. *)
Fixpoint concat_lines (ls : list string) : string :=
  match ls with
  | [] => EmptyString
  | l :: rest => l ++ nl ++ concat_lines rest
  end.

Definition labeled_value_line (name : string) (labels : list (string * string))
    (v : float) (now : Z) : string :=
  name ++ "{" ++ render_labels labels ++ "} " ++ FormattedValue v ++ " " ++ display_i64 now.

Definition bucket_line (name : string) (labels : list (string * string)) (le : string)
    (count : float) (now : Z) : string :=
  name ++ "_bucket{" ++ render_labels (labels ++ [("le", le)]) ++ "} "
  ++ display_f64 count ++ " " ++ display_i64 now.

Definition le_value (bound : float) : string :=
  if (bound =? infinity)%float then "+Inf" else display_f64 bound.

Fixpoint cumulative_bucket_lines (name : string) (labels : list (string * string))
    (now : Z) (buckets : list (float * float)) (total : float) : list string :=
  match buckets with
  | [] => []
  | (bound, v) :: rest =>
      let total := (total + v)%float in
      bucket_line name labels (le_value bound) total now
      :: cumulative_bucket_lines name labels now rest total
  end.

(** The sum of the per-bucket counts, added up left to right from [0.0]. *)
Definition sum_counts (buckets : list (float * float)) : float :=
  fold_left (fun acc bv => (acc + snd bv)%float) buckets 0%float.

Definition has_infinite_bound (buckets : list (float * float)) : bool :=
  existsb (fun bv => (fst bv =? infinity)%float) buckets.

(** A [_sum] or [_count] line. *)
Definition summary_line (name suffix : string) (labels : list (string * string))
    (shown : string) (now : Z) : string :=
  if is_empty labels
  then name ++ suffix ++ " " ++ shown ++ " " ++ display_i64 now
  else name ++ suffix ++ "{" ++ render_labels labels ++ "} " ++ shown ++ " " ++ display_i64 now.

Definition histogram_lines (name : string) (labels : list (string * string))
    (buckets : list (float * float)) (sum : float) (now : Z) : list string :=
  cumulative_bucket_lines name labels now buckets 0%float
  ++ (if has_infinite_bound buckets then []
      else [bucket_line name labels "+Inf" (sum_counts buckets) now])
  ++ [summary_line name "_sum" labels (FormattedValue sum) now;
      summary_line name "_count" labels (FormattedValue (sum_counts buckets)) now].

(** Emitted lines, told apart as header lines and sample lines. *)
Inductive Emitted : Type :=
| Header (s : string)
| Sample (s : string).

Definition emitted_text (u : Emitted) : string :=
  match u with Header s => s | Sample s => s end.

Definition render_emitted (us : list Emitted) : string :=
  concat_lines (map emitted_text us).

Definition header_lines (name help typ : string) : list Emitted :=
  [Header ("# HELP " ++ name ++ " " ++ help); Header ("# TYPE " ++ name ++ " " ++ typ)].

Definition call_lines (c : EncodeCall) (now : Z) : list Emitted :=
  match c with
  | CallCounter name v help =>
      header_lines name help "counter"
      ++ [Sample (name ++ " " ++ FormattedValue v ++ " " ++ display_i64 now)]
  | CallGauge name v help =>
      header_lines name help "gauge"
      ++ [Sample (name ++ " " ++ FormattedValue v ++ " " ++ display_i64 now)]
  | CallHistogram name buckets sum help =>
      header_lines name help "histogram" ++ map Sample (histogram_lines name [] buckets sum now)
  | CallCounterVec name help obs =>
      header_lines name help "counter"
      ++ map (fun lv => Sample (labeled_value_line name (fst lv) (snd lv) now)) obs
  | CallGaugeVec name help obs =>
      header_lines name help "gauge"
      ++ map (fun lv => Sample (labeled_value_line name (fst lv) (snd lv) now)) obs
  | CallHistogramVec name help obs =>
      header_lines name help "histogram"
      ++ flat_map (fun o => let '(labels, buckets, sum) := o in
                            map Sample (histogram_lines name labels buckets sum now)) obs
  end.

Definition pass_lines (calls : list EncodeCall) (now : Z) : list Emitted :=
  flat_map (fun c => call_lines c now) calls.

Definition ends_with (suffix s : string) : bool :=
  let n := String.length s in
  let k := String.length suffix in
  Nat.leb k n && String.eqb (substring (n - k) k s) suffix.

End Encoder.

(** A header line starts with [# ]; a sample line ends with the timestamp. *)
Definition stamped_with (now : Z) (u : Emitted) : Prop :=
  match u with
  | Header s => String.prefix "# " s = true
  | Sample s => ends_with (" " ++ display_i64 now) s = true
  end.

(** ** A concrete rendering of [f64], to instantiate [display_f64] in examples

    Finite values are written as their exact decimal expansion, infinities
    as [inf] and [-inf], NaN as [NaN], as Rust's [Display] does. *)

Definition digits_of_Z (z : Z) : string :=
  NilEmpty.string_of_uint (N.to_uint (Z.to_N z)).

Fixpoint zeros (n : nat) : string :=
  match n with O => EmptyString | S n' => String "0" (zeros n') end.

Fixpoint strip_trailing_zeros_rev (s : list ascii) : list ascii :=
  match s with
  | c :: s' => if Ascii.eqb c "0" then strip_trailing_zeros_rev s' else s
  | [] => []
  end.

(** [n / 10^k] in decimal, without trailing zeros after the point. *)
Definition decimal_point (n : Z) (k : nat) : string :=
  let ds := digits_of_Z n in
  let ds := zeros (S k - String.length ds) ++ ds in
  let len := String.length ds in
  let int_part := substring 0 (len - k) ds in
  let frac := string_of_list_ascii
                (rev (strip_trailing_zeros_rev (rev (list_ascii_of_string
                   (substring (len - k) k ds))))) in
  match frac with
  | EmptyString => int_part
  | _ => int_part ++ "." ++ frac
  end.

Definition exact_display_f64 (x : float) : string :=
  match Prim2SF x with
  | S754_zero s => if s then "-0" else "0"
  | S754_infinity s => if s then "-inf" else "inf"
  | S754_nan => "NaN"
  | S754_finite s m e =>
      (if s then "-" else EmptyString)
      ++ (if Z.leb 0 e then digits_of_Z (Z.pos m * 2 ^ e)
          else decimal_point (Z.pos m * 5 ^ (- e)) (Z.to_nat (- e)))
  end.
(** ** Reading a label set back

    A reader of the exposition format's brace interior: a key up to [=], an
    opening double quote, a value up to the next unescaped double quote (with
    the three escapes), then a comma or the end. *)
Inductive label_reader : Type :=
| InKey (k : string)
| OpenQuote (k : string)
| InValue (k v : string)
| Escaped (k v : string)
| AfterValue.

Fixpoint read_labels (st : label_reader) (acc : list (string * string)) (s : string)
    : option (list (string * string)) :=
  match s with
  | EmptyString =>
      match st, acc with
      | AfterValue, _ => Some acc
      | InKey EmptyString, [] => Some []
      | _, _ => None
      end
  | String c rest =>
      match st with
      | InKey k =>
          if Ascii.eqb c "=" then read_labels (OpenQuote k) acc rest
          else read_labels (InKey (push k c)) acc rest
      | OpenQuote k =>
          if Ascii.eqb c quote then read_labels (InValue k EmptyString) acc rest else None
      | InValue k v =>
          if Ascii.eqb c backslash then read_labels (Escaped k v) acc rest
          else if Ascii.eqb c quote then read_labels AfterValue (app acc [(k, v)]) rest
          else read_labels (InValue k (push v c)) acc rest
      | Escaped k v =>
          if Ascii.eqb c backslash then read_labels (InValue k (push v backslash)) acc rest
          else if Ascii.eqb c "n" then read_labels (InValue k (push v newline)) acc rest
          else if Ascii.eqb c quote then read_labels (InValue k (push v quote)) acc rest
          else None
      | AfterValue =>
          if Ascii.eqb c "," then read_labels (InKey EmptyString) acc rest else None
      end
  end.

Definition parse_labels (s : string) : option (list (string * string)) :=
  read_labels (InKey EmptyString) [] s.

(** Characters with a meaning in an exposition line. *)
Definition structural_char (c : ascii) : bool :=
  existsb (Ascii.eqb c) ["="; ","; quote; "{"; "}"; " "; newline; backslash; "#"]%char.

Definition has_no_char (c : ascii) (s : string) : bool :=
  forallb (fun d => negb (Ascii.eqb d c)) (list_ascii_of_string s).

(** The names and label keys a call passes to [validate_prometheus_name]. *)
Definition call_valid (c : EncodeCall) : bool :=
  match c with
  | CallCounter name _ _ | CallGauge name _ _ | CallHistogram name _ _ _ =>
      matches_name_pattern name
  | CallCounterVec name _ obs | CallGaugeVec name _ obs =>
      matches_name_pattern name && forallb (fun lv => valid_label_keys (fst lv)) obs
  | CallHistogramVec name _ obs =>
      matches_name_pattern name && forallb (fun o => valid_label_keys (fst (fst o))) obs
  end.

(** ** Concrete inputs from the spec's scenarios *)

(** Scenario 3: buckets [(1.0, 2), (5.0, 3)], sum [7.5], no labels,
    timestamp 2000. *)
Definition scenario3_buckets : list (float * float) := [(1, 2); (5, 3)]%float.

Definition scenario3_output : string :=
  concat_lines ["h_bucket{le=" ++ dq ++ "1" ++ dq ++ "} 2 2000";
                "h_bucket{le=" ++ dq ++ "5" ++ dq ++ "} 5 2000";
                "h_bucket{le=" ++ dq ++ "+Inf" ++ dq ++ "} 5 2000";
                "h_sum 7.5 2000";
                "h_count 5 2000"].

(** A label value with a backslash, a double quote and a newline. *)
Definition backslash_quote_newline : string :=
  String backslash (String quote (String newline "x")).

(** Scenario 1. *)
Definition scenario1_output : string :=
  concat_lines ["# HELP requests_total Total requests";
                "# TYPE requests_total counter";
                "requests_total 42 1000"].

(** * Proofs *)

Section Proofs.

Variable display_f64 : float -> string.

(** ** Strings *)

Lemma string_app_assoc : forall s t u : string, (s ++ t) ++ u = s ++ (t ++ u).
Proof. induction s as [|c s IH]; intros; simpl; [reflexivity | now rewrite IH]. Qed.

Lemma string_app_nil_r : forall s : string, s ++ EmptyString = s.
Proof. induction s as [|c s IH]; simpl; [reflexivity | now rewrite IH]. Qed.

Ltac normalize_app :=
  unfold push, dq in *; repeat progress (rewrite ?string_app_assoc; cbn [append]).

(** ** The name validator against the pattern *)

Lemma first_class_eq : forall c,
  (is_ascii_alphabetic c || Ascii.eqb c "_") = name_first_class c.
Proof. intros [[] [] [] [] [] [] [] []]; reflexivity. Qed.

Lemma rest_class_eq : forall c,
  (is_ascii_alphanumeric c || Ascii.eqb c "_") = name_rest_class c.
Proof. intros [[] [] [] [] [] [] [] []]; reflexivity. Qed.

Lemma rest_star_eq : forall s,
  forallb (fun c => is_ascii_alphanumeric c || Ascii.eqb c "_") (list_ascii_of_string s)
  = name_rest_star s.
Proof.
  induction s as [|c s IH]; simpl; [reflexivity|].
  now rewrite rest_class_eq, IH.
Qed.

Lemma validate_eq : forall name,
  validate_prometheus_name name
  = if matches_name_pattern name then Returned tt else Panicked.
Proof.
  intros [|c rest]; simpl; [reflexivity|].
  rewrite first_class_eq, rest_star_eq.
  destruct (name_first_class c), (name_rest_star rest); reflexivity.
Qed.

Lemma validate_ok : forall name,
  matches_name_pattern name = true -> validate_prometheus_name name = Returned tt.
Proof. intros name H. now rewrite validate_eq, H. Qed.

(** ** Label serialization *)

Lemma push_escaped_eq : forall v buf,
  push_escaped buf v = buf ++ escape_label_value v.
Proof.
  induction v as [|c v IH]; intros buf; simpl.
  - now rewrite string_app_nil_r.
  - rewrite IH. unfold escape_char.
    destruct (Ascii.eqb c backslash), (Ascii.eqb c newline), (Ascii.eqb c quote);
      normalize_app; reflexivity.
Qed.

Lemma encode_labels_loop_eq : forall labels i buf,
  valid_label_keys labels = true ->
  encode_labels_loop (S i) buf labels
  = Returned (buf ++ fold_right (fun kv acc => "," ++ render_label kv ++ acc)
                                EmptyString labels).
Proof.
  induction labels as [|[k v] rest IH]; intros i buf Hv; simpl.
  - now rewrite string_app_nil_r.
  - simpl in Hv. apply andb_prop in Hv as [Hk Hrest].
    rewrite (validate_ok k Hk). simpl.
    rewrite IH by exact Hrest. rewrite push_escaped_eq.
    unfold render_label; simpl. normalize_app. reflexivity.
Qed.

Lemma concat_comma_cons : forall x xs,
  String.concat "," (x :: xs)
  = x ++ fold_right (fun y acc => "," ++ y ++ acc) EmptyString xs.
Proof.
  intros x xs. revert x. induction xs as [|y ys IH]; intros x.
  - simpl. now rewrite string_app_nil_r.
  - change (String.concat "," (x :: y :: ys)) with (x ++ "," ++ String.concat "," (y :: ys)).
    now rewrite IH.
Qed.

Lemma fold_right_comma_map : forall (f : string * string -> string) xs,
  fold_right (fun y acc => "," ++ y ++ acc) EmptyString (map f xs)
  = fold_right (fun kv acc => "," ++ f kv ++ acc) EmptyString xs.
Proof. intros f xs; induction xs as [|x xs IH]; cbn [map fold_right]; [reflexivity | now rewrite IH]. Qed.

Lemma encode_labels_eq : forall labels,
  valid_label_keys labels = true -> encode_labels labels = Returned (render_labels labels).
Proof.
  intros [|[k v] rest] Hv; [reflexivity|].
  simpl in Hv. apply andb_prop in Hv as [Hk Hrest].
  unfold encode_labels, render_labels. cbn [encode_labels_loop].
  rewrite (validate_ok k Hk). cbn [obind Nat.ltb Nat.leb].
  rewrite encode_labels_loop_eq by exact Hrest. rewrite push_escaped_eq.
  cbn [map]. rewrite concat_comma_cons, fold_right_comma_map.
  change (render_label (k, v)) with (k ++ "=" ++ dq ++ escape_label_value v ++ dq).
  normalize_app. reflexivity.
Qed.

Lemma unescape_escape : forall v,
  unescape_label_value (escape_label_value v) = Some v.
Proof.
  induction v as [|c v IH]; [reflexivity|].
  simpl. unfold escape_char.
  destruct (Ascii.eqb c backslash) eqn:Eb.
  { apply Ascii.eqb_eq in Eb; subst c. simpl. now rewrite IH. }
  destruct (Ascii.eqb c newline) eqn:En.
  { apply Ascii.eqb_eq in En; subst c. simpl. now rewrite IH. }
  destruct (Ascii.eqb c quote) eqn:Eq.
  { apply Ascii.eqb_eq in Eq; subst c. simpl. now rewrite IH. }
  simpl. rewrite Eb, IH. reflexivity.
Qed.

(** ** Writes and the histogram loop *)

Lemma concat_lines_app : forall xs ys,
  concat_lines (xs ++ ys) = concat_lines xs ++ concat_lines ys.
Proof.
  induction xs as [|x xs IH]; intros ys; [reflexivity|].
  cbn [app concat_lines]. rewrite IH. now rewrite !string_app_assoc.
Qed.

Lemma valid_label_keys_app : forall l1 l2,
  valid_label_keys (l1 ++ l2) = valid_label_keys l1 && valid_label_keys l2.
Proof. intros l1 l2. unfold valid_label_keys. apply forallb_app. Qed.

Lemma valid_with_le : forall labels le,
  valid_label_keys labels = true -> valid_label_keys (labels ++ [("le", le)]) = true.
Proof. intros labels le H. now rewrite valid_label_keys_app, H. Qed.

Lemma writeln_eq : forall s e,
  writeln s e = Returned (tt, mkEncoder (writer e ++ s ++ nl) (now_millis e)).
Proof. reflexivity. Qed.

Lemma validate_labels_eq : forall labels e,
  validate_labels labels e
  = if valid_label_keys labels then Returned (tt, e) else Panicked.
Proof.
  induction labels as [|[k v] rest IH]; intros e; [reflexivity|].
  cbn [validate_labels valid_label_keys forallb fst].
  unfold bind, lift at 1. rewrite validate_eq.
  destruct (matches_name_pattern k); [apply IH | reflexivity].
Qed.

Lemma write_bucket_eq : forall name labels le total e,
  valid_label_keys labels = true ->
  write_bucket display_f64 name labels le total e
  = Returned (tt, mkEncoder (writer e ++ bucket_line display_f64 name labels le total
                                          (now_millis e) ++ nl)
                            (now_millis e)).
Proof.
  intros name labels le total e Hv. unfold write_bucket, bind, lift at 1.
  rewrite (encode_labels_eq _ (valid_with_le labels le Hv)).
  unfold get, bucket_line. rewrite writeln_eq. cbn [writer now_millis].
  normalize_app. reflexivity.
Qed.

Lemma histogram_buckets_eq : forall name labels buckets total saw e,
  valid_label_keys labels = true ->
  histogram_buckets display_f64 name labels buckets total saw e
  = Returned ((fold_left (fun acc bv => (acc + snd bv)%float) buckets total,
               saw || has_infinite_bound buckets),
              mkEncoder (writer e ++ concat_lines
                           (cumulative_bucket_lines display_f64 name labels (now_millis e)
                              buckets total))
                        (now_millis e)).
Proof.
  intros name labels buckets. induction buckets as [|[bound v] rest IH];
    intros total saw e Hv.
  - cbn. rewrite orb_false_r, string_app_nil_r. now destruct e.
  - cbn [histogram_buckets cumulative_bucket_lines fold_left has_infinite_bound existsb
         fst snd concat_lines].
    unfold le_value.
    destruct (bound =? infinity)%float; unfold bind;
      rewrite write_bucket_eq by exact Hv; rewrite IH by exact Hv;
      cbn [writer now_millis]; normalize_app;
      [rewrite orb_true_r | ]; reflexivity.
Qed.

Lemma histogram_eq : forall b labels buckets sum e,
  histogram display_f64 b labels buckets sum e
  = if valid_label_keys labels
    then Returned (b, mkEncoder (writer e ++ concat_lines
                                   (histogram_lines display_f64 (histogram_name b) labels
                                      buckets sum (now_millis e)))
                                (now_millis e))
    else Panicked.
Proof.
  intros b labels buckets sum e. unfold histogram, bind at 1.
  rewrite validate_labels_eq. destruct (valid_label_keys labels) eqn:Hv; [|reflexivity].
  unfold bind at 1. rewrite histogram_buckets_eq by exact Hv. cbn [orb negb].
  unfold histogram_lines, sum_counts. rewrite !concat_lines_app.
  destruct (has_infinite_bound buckets); cbn [negb]; unfold bind at 1;
    [ unfold ret at 1 | rewrite write_bucket_eq by exact Hv ];
    cbn [writer now_millis];
    unfold summary_line; destruct (is_empty labels) eqn:He;
    unfold bind, get, lift, ret; repeat rewrite ?writeln_eq, ?(encode_labels_eq _ Hv);
    cbn [writer now_millis concat_lines]; normalize_app; reflexivity.
Qed.

(** ** The other operations *)

Lemma render_emitted_app : forall xs ys,
  render_emitted (xs ++ ys) = render_emitted xs ++ render_emitted ys.
Proof. intros xs ys. unfold render_emitted. now rewrite map_app, concat_lines_app. Qed.

Lemma render_emitted_samples : forall ls,
  render_emitted (map Sample ls) = concat_lines ls.
Proof.
  intros ls. unfold render_emitted. rewrite map_map. cbn [emitted_text].
  now rewrite map_id.
Qed.

Lemma render_emitted_single : forall s, render_emitted [Sample s] = s ++ nl.
Proof. intros s. unfold render_emitted. cbn [map emitted_text concat_lines]. now rewrite string_app_nil_r. Qed.

Lemma encode_header_eq : forall name help typ e,
  encode_header name help typ e
  = Returned (tt, mkEncoder (writer e ++ render_emitted (header_lines name help typ))
                            (now_millis e)).
Proof.
  intros. unfold encode_header, bind. rewrite !writeln_eq. cbn [writer now_millis].
  unfold render_emitted, header_lines. cbn [map emitted_text concat_lines].
  normalize_app. reflexivity.
Qed.

Lemma encode_single_value_eq : forall typ name v help e,
  encode_single_value display_f64 typ name v help e
  = if matches_name_pattern name
    then Returned (tt, mkEncoder
           (writer e ++ render_emitted (header_lines name help typ
              ++ [Sample (name ++ " " ++ FormattedValue display_f64 v ++ " "
                          ++ display_i64 (now_millis e))]))
           (now_millis e))
    else Panicked.
Proof.
  intros. unfold encode_single_value, bind at 1, lift at 1. rewrite validate_eq.
  destruct (matches_name_pattern name); [|reflexivity].
  unfold bind. rewrite encode_header_eq. unfold get. rewrite writeln_eq.
  cbn [writer now_millis]. rewrite render_emitted_app, render_emitted_single.
  normalize_app. reflexivity.
Qed.

Lemma header_then_builder_eq : forall {B} (x : B) typ name help e,
  (lift (validate_prometheus_name name) ;; encode_header name help typ ;; ret x) e
  = if matches_name_pattern name
    then Returned (x,
                   mkEncoder (writer e ++ render_emitted (header_lines name help typ))
                             (now_millis e))
    else Panicked.
Proof.
  intros. unfold bind at 1, lift at 1. rewrite validate_eq.
  destruct (matches_name_pattern name); [|reflexivity].
  unfold bind. now rewrite encode_header_eq.
Qed.

Lemma encode_labels_loop_invalid : forall labels i buf,
  valid_label_keys labels = false -> encode_labels_loop i buf labels = Panicked.
Proof.
  induction labels as [|[k v] rest IH]; intros i buf H; [discriminate|].
  cbn [valid_label_keys forallb fst] in H. cbn [encode_labels_loop].
  rewrite validate_eq. destruct (matches_name_pattern k); [|reflexivity].
  apply IH. exact H.
Qed.

Lemma encode_labels_cases : forall labels,
  encode_labels labels
  = if valid_label_keys labels then Returned (render_labels labels) else Panicked.
Proof.
  intros labels. destruct (valid_label_keys labels) eqn:Hv.
  - now apply encode_labels_eq.
  - now apply encode_labels_loop_invalid.
Qed.

Lemma value_eq : forall b labels v e,
  value display_f64 b labels v e
  = if valid_label_keys labels
    then Returned (b, mkEncoder (writer e ++ labeled_value_line display_f64
                                   (metrics_name b) labels v (now_millis e) ++ nl)
                                (now_millis e))
    else Panicked.
Proof.
  intros. unfold value, encode_value_with_labels, bind at 1, bind at 1, lift at 1.
  rewrite encode_labels_cases. destruct (valid_label_keys labels); [|reflexivity].
  unfold bind, get, ret. rewrite writeln_eq.
  unfold labeled_value_line. cbn [writer now_millis]. normalize_app. reflexivity.
Qed.

Lemma values_eq : forall obs b e,
  values display_f64 b obs e
  = if forallb (fun lv => valid_label_keys (fst lv)) obs
    then Returned (b, mkEncoder (writer e ++ render_emitted
           (map (fun lv => Sample (labeled_value_line display_f64 (metrics_name b)
                                     (fst lv) (snd lv) (now_millis e))) obs))
           (now_millis e))
    else Panicked.
Proof.
  induction obs as [|[labels v] rest IH]; intros b e.
  - cbn. unfold ret. rewrite string_app_nil_r. now destruct e.
  - cbn [values forallb fst snd map]. unfold bind at 1. rewrite value_eq.
    destruct (valid_label_keys labels); [|reflexivity].
    rewrite IH. cbn [writer now_millis andb].
    destruct (forallb _ rest); [|reflexivity].
    unfold render_emitted. cbn [map emitted_text concat_lines]. normalize_app.
    reflexivity.
Qed.

Lemma histograms_eq : forall obs b e,
  histograms display_f64 b obs e
  = if forallb (fun o => valid_label_keys (fst (fst o))) obs
    then Returned (b, mkEncoder (writer e ++ render_emitted
           (flat_map (fun o => let '(labels, buckets, sum) := o in
                        map Sample (histogram_lines display_f64 (histogram_name b)
                                      labels buckets sum (now_millis e))) obs))
           (now_millis e))
    else Panicked.
Proof.
  induction obs as [|[[labels buckets] sum] rest IH]; intros b e.
  - cbn. unfold ret. rewrite string_app_nil_r. now destruct e.
  - cbn [histograms forallb fst snd flat_map]. unfold bind at 1. rewrite histogram_eq.
    destruct (valid_label_keys labels); [|reflexivity].
    rewrite IH. cbn [writer now_millis andb].
    destruct (forallb _ rest); [|reflexivity].
    rewrite render_emitted_app, render_emitted_samples. normalize_app.
    reflexivity.
Qed.

Lemma run_call_ok : forall c e e',
  run_call display_f64 c e = Returned (tt, e') ->
  now_millis e' = now_millis e
  /\ writer e' = writer e ++ render_emitted (call_lines display_f64 c (now_millis e)).
Proof.
  intros [name v help | name v help | name buckets sum help
         | name help obs | name help obs | name help obs] e e' H;
    cbn [run_call call_lines] in *.
  - unfold encode_counter in H. rewrite encode_single_value_eq in H.
    destruct (matches_name_pattern name); inversion H; subst; now split.
  - unfold encode_gauge in H. rewrite encode_single_value_eq in H.
    destruct (matches_name_pattern name); inversion H; subst; now split.
  - unfold encode_histogram, histogram_vec, bind at 1 in H.
    rewrite header_then_builder_eq in H.
    destruct (matches_name_pattern name); [|discriminate].
    unfold bind in H. rewrite histogram_eq in H. cbn [valid_label_keys forallb] in H.
    unfold ret in H. inversion H; subst. cbn [writer now_millis histogram_name].
    split; [reflexivity|].
    rewrite render_emitted_app, render_emitted_samples. now rewrite string_app_assoc.
  - unfold counter_vec, bind at 1 in H. rewrite header_then_builder_eq in H.
    destruct (matches_name_pattern name); [|discriminate].
    unfold bind in H. rewrite values_eq in H.
    destruct (forallb _ obs); [|discriminate].
    unfold ret in H. inversion H; subst. cbn [writer now_millis metrics_name].
    split; [reflexivity|]. rewrite render_emitted_app. now rewrite string_app_assoc.
  - unfold gauge_vec, bind at 1 in H. rewrite header_then_builder_eq in H.
    destruct (matches_name_pattern name); [|discriminate].
    unfold bind in H. rewrite values_eq in H.
    destruct (forallb _ obs); [|discriminate].
    unfold ret in H. inversion H; subst. cbn [writer now_millis metrics_name].
    split; [reflexivity|]. rewrite render_emitted_app. now rewrite string_app_assoc.
  - unfold histogram_vec, bind at 1 in H. rewrite header_then_builder_eq in H.
    destruct (matches_name_pattern name); [|discriminate].
    unfold bind in H. rewrite histograms_eq in H.
    destruct (forallb _ obs); [|discriminate].
    unfold ret in H. inversion H; subst. cbn [writer now_millis histogram_name].
    split; [reflexivity|]. rewrite render_emitted_app. now rewrite string_app_assoc.
Qed.

Lemma run_pass_ok : forall calls e e',
  run_pass display_f64 calls e = Returned (tt, e') ->
  now_millis e' = now_millis e
  /\ writer e' = writer e ++ render_emitted (pass_lines display_f64 calls (now_millis e)).
Proof.
  induction calls as [|c rest IH]; intros e e' H.
  - cbn in H. inversion H; subst. split; [reflexivity|].
    unfold pass_lines. cbn. now rewrite string_app_nil_r.
  - cbn [run_pass] in H. unfold bind in H.
    destruct (run_call display_f64 c e) as [|[[] e1]] eqn:Hc; [discriminate|].
    apply run_call_ok in Hc as [Hn1 Hw1].
    apply IH in H as [Hn Hw]. rewrite Hn1 in Hn, Hw.
    split; [exact Hn|]. rewrite Hw, Hw1.
    unfold pass_lines. cbn [flat_map]. rewrite render_emitted_app.
    now rewrite string_app_assoc.
Qed.

(** ** Suffixes *)

Lemma string_length_app : forall p s,
  String.length (p ++ s) = String.length p + String.length s.
Proof. induction p as [|c p IH]; intros s; simpl; [reflexivity | now rewrite IH]. Qed.

Lemma substring_after : forall p s m,
  substring (String.length p) m (p ++ s) = substring 0 m s.
Proof. induction p as [|c p IH]; intros s m; [reflexivity | apply IH]. Qed.

Lemma substring_whole : forall s, substring 0 (String.length s) s = s.
Proof. induction s as [|c s IH]; simpl; [reflexivity | now rewrite IH]. Qed.

Lemma ends_with_intro : forall suffix s p, s = p ++ suffix -> ends_with suffix s = true.
Proof.
  intros suffix s p ->. unfold ends_with.
  rewrite string_length_app, Nat.add_sub, substring_after, substring_whole.
  rewrite String.eqb_refl, andb_true_r. apply Nat.leb_le. apply Nat.le_add_l.
Qed.

Ltac stamped p := apply (ends_with_intro _ _ p); normalize_app; reflexivity.

Lemma header_lines_stamped : forall name help typ now,
  Forall (stamped_with now) (header_lines name help typ).
Proof. intros. repeat constructor. Qed.

Lemma cumulative_stamped : forall name labels now buckets total,
  Forall (fun l => stamped_with now (Sample l))
         (cumulative_bucket_lines display_f64 name labels now buckets total).
Proof.
  intros name labels now buckets. induction buckets as [|[bound v] rest IH]; intros total;
    constructor; [|apply IH].
  cbn [stamped_with]. unfold bucket_line.
  stamped (name ++ "_bucket{" ++ render_labels (labels ++ [("le", le_value display_f64 bound)])
           ++ "} " ++ display_f64 (total + v)%float).
Qed.

Lemma histogram_lines_stamped : forall name labels buckets sum now,
  Forall (stamped_with now) (map Sample (histogram_lines display_f64 name labels buckets sum now)).
Proof.
  intros. apply Forall_map. unfold histogram_lines.
  apply Forall_app; split; [apply cumulative_stamped|].
  apply Forall_app; split.
  - destruct (has_infinite_bound buckets); constructor; [|constructor].
    cbn [stamped_with]. unfold bucket_line.
    stamped (name ++ "_bucket{" ++ render_labels (labels ++ [("le", "+Inf")])
             ++ "} " ++ display_f64 (sum_counts buckets)).
  - unfold summary_line. destruct (is_empty labels);
      repeat constructor; cbn [stamped_with].
    + stamped (name ++ "_sum " ++ FormattedValue display_f64 sum).
    + stamped (name ++ "_count " ++ FormattedValue display_f64 (sum_counts buckets)).
    + stamped (name ++ "_sum{" ++ render_labels labels ++ "} " ++ FormattedValue display_f64 sum).
    + stamped (name ++ "_count{" ++ render_labels labels ++ "} "
               ++ FormattedValue display_f64 (sum_counts buckets)).
Qed.

Lemma call_lines_stamped : forall c now,
  Forall (stamped_with now) (call_lines display_f64 c now).
Proof.
  intros [name v help | name v help | name buckets sum help
         | name help obs | name help obs | name help obs] now;
    cbn [call_lines]; apply Forall_app; split; try apply header_lines_stamped.
  - constructor; [|constructor]. cbn [stamped_with].
    stamped (name ++ " " ++ FormattedValue display_f64 v).
  - constructor; [|constructor]. cbn [stamped_with].
    stamped (name ++ " " ++ FormattedValue display_f64 v).
  - apply histogram_lines_stamped.
  - apply Forall_map, Forall_forall. intros [labels v] _. cbn [stamped_with fst snd].
    unfold labeled_value_line.
    stamped (name ++ "{" ++ render_labels labels ++ "} " ++ FormattedValue display_f64 v).
  - apply Forall_map, Forall_forall. intros [labels v] _. cbn [stamped_with fst snd].
    unfold labeled_value_line.
    stamped (name ++ "{" ++ render_labels labels ++ "} " ++ FormattedValue display_f64 v).
  - induction obs as [|[[labels buckets] sum] rest IH]; [constructor|].
    cbn [flat_map]. apply Forall_app; split; [apply histogram_lines_stamped | exact IH].
Qed.

Lemma pass_lines_stamped : forall calls now,
  Forall (stamped_with now) (pass_lines display_f64 calls now).
Proof.
  induction calls as [|c rest IH]; intros now; [constructor|].
  unfold pass_lines. cbn [flat_map]. apply Forall_app; split;
    [apply call_lines_stamped | apply IH].
Qed.

(** ** Histogram bucket lines *)

Lemma cumulative_length : forall name labels now buckets total,
  List.length (cumulative_bucket_lines display_f64 name labels now buckets total)
  = List.length buckets.
Proof.
  intros name labels now buckets. induction buckets as [|[bound v] rest IH]; intros total;
    cbn; [reflexivity | now rewrite IH].
Qed.

Lemma cumulative_last : forall name labels now buckets total,
  buckets <> [] ->
  exists earlier le,
    cumulative_bucket_lines display_f64 name labels now buckets total
    = (earlier ++ [bucket_line display_f64 name labels le
                     (fold_left (fun acc bv => (acc + snd bv)%float) buckets total) now])%list.
Proof.
  intros name labels now buckets. induction buckets as [|[bound v] rest IH];
    intros total Hne; [contradiction|].
  cbn [cumulative_bucket_lines fold_left snd].
  destruct rest as [|bv rest'].
  - exists [], (le_value display_f64 bound). reflexivity.
  - destruct (IH (total + v)%float) as (earlier & le & Heq); [discriminate|].
    exists (bucket_line display_f64 name labels (le_value display_f64 bound)
              (total + v)%float now :: earlier), le.
    now rewrite Heq.
Qed.

Lemma has_infinite_bound_nonempty : forall buckets,
  has_infinite_bound buckets = true -> buckets <> [].
Proof. intros [|bv rest] H; [discriminate | discriminate]. Qed.

Lemma render_le_only : forall le,
  render_labels ([] ++ [("le", le)]) = "le=" ++ dq ++ escape_label_value le ++ dq.
Proof. reflexivity. Qed.

Lemma cumulative_unlabeled : forall name now buckets total,
  exists entries : list (string * float),
    cumulative_bucket_lines display_f64 name [] now buckets total
    = map (fun lc => name ++ "_bucket{le=" ++ dq ++ escape_label_value (fst lc) ++ dq
                     ++ "} " ++ display_f64 (snd lc) ++ " " ++ display_i64 now) entries.
Proof.
  intros name now buckets. induction buckets as [|[bound v] rest IH]; intros total.
  - now exists [].
  - destruct (IH (total + v)%float) as [entries Heq].
    exists ((le_value display_f64 bound, (total + v)%float) :: entries).
    cbn [cumulative_bucket_lines map fst snd]. rewrite Heq.
    unfold bucket_line. rewrite render_le_only. normalize_app. reflexivity.
Qed.

(** ** Special floats *)

Lemma prim_infinity : Prim2SF infinity = S754_infinity false.
Proof. reflexivity. Qed.

Lemma prim_neg_infinity : Prim2SF neg_infinity = S754_infinity true.
Proof. reflexivity. Qed.

Lemma finite_not_infinite : forall v,
  PrimFloat.is_finite v = true ->
  (v =? infinity)%float = false /\ (v =? neg_infinity)%float = false.
Proof.
  intros v H. unfold PrimFloat.is_finite, PrimFloat.is_infinity in H.
  apply negb_true_iff, orb_false_iff in H as [_ Hinf].
  rewrite FloatAxioms.eqb_spec, FloatAxioms.abs_spec, prim_infinity in Hinf.
  rewrite !FloatAxioms.eqb_spec, prim_infinity, prim_neg_infinity.
  destruct (Prim2SF v) as [[]|[]| |[] m e]; cbn in Hinf |- *; auto; discriminate.
Qed.

Lemma float_trichotomy : forall v,
  PrimFloat.is_nan v = true \/ (v =? infinity)%float = true
  \/ (v =? neg_infinity)%float = true \/ PrimFloat.is_finite v = true.
Proof.
  intros v. destruct (PrimFloat.is_nan v) eqn:Hn; [now left|].
  destruct (PrimFloat.is_infinity v) eqn:Hi.
  - unfold PrimFloat.is_infinity in Hi.
    rewrite FloatAxioms.eqb_spec, FloatAxioms.abs_spec, prim_infinity in Hi.
    rewrite !FloatAxioms.eqb_spec, prim_infinity, prim_neg_infinity.
    destruct (Prim2SF v) as [[]|[]| |[] m e]; cbn in Hi |- *; auto; discriminate.
  - right; right; right. unfold PrimFloat.is_finite. now rewrite Hn, Hi.
Qed.

(** * The claims *)

(** C1: the last bucket line of a histogram and its [_count] line both carry
    the left-to-right [f64] sum of the per-bucket counts; the [sum] argument
    only reaches the [_sum] line. *)
Theorem histogram_final_bucket_and_count_are_total :
  forall b labels buckets sum e b' e',
  histogram display_f64 b labels buckets sum e = Returned (b', e') ->
  exists (earlier : list string) (le : string),
    writer e' = writer e ++ concat_lines (earlier ++
      [bucket_line display_f64 (histogram_name b) labels le (sum_counts buckets) (now_millis e);
       summary_line (histogram_name b) "_sum" labels
         (FormattedValue display_f64 sum) (now_millis e);
       summary_line (histogram_name b) "_count" labels
         (FormattedValue display_f64 (sum_counts buckets)) (now_millis e)])%list.
Proof.
  intros b labels buckets sum e b' e' H. rewrite histogram_eq in H.
  destruct (valid_label_keys labels); [|discriminate].
  injection H as Hb He. subst b' e'.
  cbn [writer]. unfold histogram_lines.
  destruct (has_infinite_bound buckets) eqn:Hinf.
  - destruct (cumulative_last (histogram_name b) labels (now_millis e) buckets 0%float
                (has_infinite_bound_nonempty _ Hinf)) as (earlier & le & Heq).
    exists earlier, le. rewrite Heq. unfold sum_counts.
    now rewrite <- app_assoc.
  - exists (cumulative_bucket_lines display_f64 (histogram_name b) labels (now_millis e)
              buckets 0%float), "+Inf".
    reflexivity.
Qed.

(** C2: without an explicit [+Inf] bound, one [le="+Inf"] line carrying the
    running total follows the explicit bucket lines (one per input pair);
    with one, no line is added. *)
Theorem histogram_synthesized_inf_bucket :
  forall b labels buckets sum e b' e',
  histogram display_f64 b labels buckets sum e = Returned (b', e') ->
  let name := histogram_name b in
  let now := now_millis e in
  let explicit := cumulative_bucket_lines display_f64 name labels now buckets 0%float in
  let summary := [summary_line name "_sum" labels (FormattedValue display_f64 sum) now;
                  summary_line name "_count" labels
                    (FormattedValue display_f64 (sum_counts buckets)) now] in
  List.length explicit = List.length buckets
  /\ (buckets <> [] -> exists (earlier : list string) (le : string),
        explicit = (earlier ++ [bucket_line display_f64 name labels le
                                  (sum_counts buckets) now])%list)
  /\ (has_infinite_bound buckets = false ->
        writer e' = writer e ++ concat_lines (explicit
          ++ [bucket_line display_f64 name labels "+Inf" (sum_counts buckets) now]
          ++ summary)%list)
  /\ (has_infinite_bound buckets = true ->
        writer e' = writer e ++ concat_lines (explicit ++ summary)%list).
Proof.
  intros b labels buckets sum e b' e' H name now explicit summary.
  rewrite histogram_eq in H.
  destruct (valid_label_keys labels); [|discriminate].
  injection H as Hb He. subst b' e'.
  split; [apply cumulative_length|].
  split; [intros Hne; apply cumulative_last; exact Hne|].
  cbn [writer]. unfold histogram_lines.
  split; intros Hinf; rewrite Hinf; reflexivity.
Qed.

(** C3, as the code has it: with no labels the [_sum] and [_count] lines carry
    no braces, and each bucket line keeps braces holding only its [le] label. *)
Theorem histogram_unlabeled_line_shapes : forall b buckets sum e,
  let name := histogram_name b in
  let now := now_millis e in
  exists entries : list (string * float),
    histogram display_f64 b [] buckets sum e
    = Returned (b, mkEncoder (writer e ++ concat_lines (app
        (map (fun lc => name ++ "_bucket{le=" ++ dq ++ escape_label_value (fst lc) ++ dq
                        ++ "} " ++ display_f64 (snd lc) ++ " " ++ display_i64 now) entries)
        [name ++ "_sum " ++ FormattedValue display_f64 sum ++ " " ++ display_i64 now;
         name ++ "_count " ++ FormattedValue display_f64 (sum_counts buckets) ++ " "
         ++ display_i64 now])) now).
Proof.
  intros b buckets sum e name now.
  rewrite histogram_eq. cbn [valid_label_keys forallb].
  unfold histogram_lines, summary_line. cbn [is_empty].
  destruct (cumulative_unlabeled name now buckets 0%float) as [entries Heq].
  fold name now. rewrite Heq.
  destruct (has_infinite_bound buckets).
  - exists entries. now rewrite app_nil_l.
  - exists (entries ++ [("+Inf", sum_counts buckets)])%list.
    rewrite map_app, <- app_assoc. cbn [map fst snd app].
    unfold bucket_line. rewrite render_le_only. normalize_app. reflexivity.
Qed.

(** C4: [FormattedValue] renders every NaN as [NaN], the infinities as [+Inf]
    and [-Inf], and every finite value by Rust's [Display]; these cases cover
    every [f64]. *)
Theorem FormattedValue_cases :
  (forall v, PrimFloat.is_nan v = true -> FormattedValue display_f64 v = "NaN")
  /\ FormattedValue display_f64 infinity = "+Inf"
  /\ FormattedValue display_f64 neg_infinity = "-Inf"
  /\ (forall v, PrimFloat.is_finite v = true -> FormattedValue display_f64 v = display_f64 v)
  /\ (forall v, PrimFloat.is_nan v = true \/ (v =? infinity)%float = true
                \/ (v =? neg_infinity)%float = true \/ PrimFloat.is_finite v = true).
Proof.
  split; [intros v H; unfold FormattedValue; now rewrite H|].
  split; [reflexivity|].
  split; [reflexivity|].
  split; [|exact float_trichotomy].
  intros v H. unfold FormattedValue.
  assert (Hn : PrimFloat.is_nan v = false).
  { unfold PrimFloat.is_finite in H. apply negb_true_iff, orb_false_iff in H. apply H. }
  destruct (finite_not_infinite v H) as [Hi Hm]. now rewrite Hn, Hi, Hm.
Qed.

(** C5: [validate_prometheus_name] returns exactly on the names matching
    [^[A-Za-z_][A-Za-z0-9_]*$] and panics on every other string. *)
Theorem validate_prometheus_name_pattern : forall name,
  (validate_prometheus_name name = Returned tt <-> matches_name_pattern name = true)
  /\ (validate_prometheus_name name = Panicked <-> matches_name_pattern name = false).
Proof.
  intros name. rewrite validate_eq.
  destruct (matches_name_pattern name); split; split; congruence.
Qed.

(** C6: a label value is escaped character by character ([escape_char]) and
    un-escaping the serialized value gives it back. *)
Theorem label_value_escape_roundtrip : forall k v,
  matches_name_pattern k = true ->
  encode_labels [(k, v)] = Returned (k ++ "=" ++ dq ++ escape_label_value v ++ dq)
  /\ unescape_label_value (escape_label_value v) = Some v.
Proof.
  intros k v Hk. split; [|apply unescape_escape].
  rewrite encode_labels_eq; [reflexivity|]. cbn. now rewrite Hk.
Qed.

(** C7: with valid keys, [encode_labels] is [k1="v1",k2="v2",...] over the
    pairs in the order given. *)
Theorem encode_labels_in_given_order : forall labels,
  valid_label_keys labels = true ->
  encode_labels labels = Returned (String.concat "," (map render_label labels)).
Proof. intros labels Hv. exact (encode_labels_eq labels Hv). Qed.

(** C8: the [requests_total] counter at timestamp 1000, with the help text
    copied as it is. *)
Theorem encode_counter_requests_total :
  display_f64 42 = "42" ->
  encode_counter display_f64 "requests_total" 42 "Total requests" (new EmptyString 1000)
  = Returned (tt, new ("# HELP requests_total Total requests" ++ nl
                       ++ "# TYPE requests_total counter" ++ nl
                       ++ "requests_total 42 1000" ++ nl) 1000)
  /\ forall w help,
     encode_counter display_f64 "requests_total" 42 help (new w 1000)
     = Returned (tt, new (w ++ "# HELP requests_total " ++ help ++ nl
                          ++ "# TYPE requests_total counter" ++ nl
                          ++ "requests_total 42 1000" ++ nl) 1000).
Proof.
  intros H42.
  assert (Hgen : forall w help,
     encode_counter display_f64 "requests_total" 42 help (new w 1000)
     = Returned (tt, new (w ++ "# HELP requests_total " ++ help ++ nl
                          ++ "# TYPE requests_total counter" ++ nl
                          ++ "requests_total 42 1000" ++ nl) 1000)).
  { intros w help. unfold encode_counter. rewrite encode_single_value_eq.
    cbn [matches_name_pattern]. vm_compute (name_first_class _ && name_rest_star _).
    unfold render_emitted, header_lines. cbn [app map emitted_text concat_lines].
    unfold FormattedValue. vm_compute (PrimFloat.is_nan 42).
    vm_compute ((42 =? infinity)%float). vm_compute ((42 =? neg_infinity)%float).
    rewrite H42. cbn [writer now_millis new]. unfold new.
    normalize_app. reflexivity. }
  split; [exact (Hgen EmptyString "Total requests") | exact Hgen].
Qed.

(** C9: an encoding pass keeps the construction-time timestamp, and every
    sample line it writes ends with that timestamp. *)
Theorem pass_timestamp_fixed : forall calls w ts e',
  run_pass display_f64 calls (new w ts) = Returned (tt, e') ->
  now_millis e' = ts
  /\ writer e' = w ++ render_emitted (pass_lines display_f64 calls ts)
  /\ Forall (stamped_with ts) (pass_lines display_f64 calls ts).
Proof.
  intros calls w ts e' H. apply run_pass_ok in H as [Hn Hw].
  split; [exact Hn|]. split; [exact Hw|]. apply pass_lines_stamped.
Qed.

(** C10: a labeled value with no labels is written with empty braces. *)
Theorem value_without_labels_has_braces : forall b v e,
  value display_f64 b [] v e
  = Returned (b, mkEncoder (writer e ++ metrics_name b ++ "{} " ++ FormattedValue display_f64 v
                            ++ " " ++ display_i64 (now_millis e) ++ nl) (now_millis e)).
Proof.
  intros b v e. rewrite value_eq. cbn [valid_label_keys forallb].
  unfold labeled_value_line. cbn [render_labels map String.concat].
  normalize_app. reflexivity.
Qed.

End Proofs.

(** * Further properties of the encoder *)

Section Extras.

Variable display_f64 : float -> string.

Ltac normalize_app' :=
  unfold push, dq in *; repeat progress (rewrite ?string_app_assoc; cbn [append]).

(** ** Names *)

Lemma first_class_not_structural : forall c,
  name_first_class c = true -> structural_char c = false.
Proof. intros [[] [] [] [] [] [] [] []]; vm_compute; congruence. Qed.

Lemma rest_class_not_structural : forall c,
  name_rest_class c = true -> structural_char c = false.
Proof. intros [[] [] [] [] [] [] [] []]; vm_compute; congruence. Qed.

Lemma rest_star_not_structural : forall s,
  name_rest_star s = true ->
  forallb (fun c => negb (structural_char c)) (list_ascii_of_string s) = true.
Proof.
  induction s as [|c s IH]; intros H; [reflexivity|].
  cbn [name_rest_star list_ascii_of_string forallb] in H |- *.
  apply andb_prop in H as [Hc Hs].
  now rewrite rest_class_not_structural, IH.
Qed.

Lemma pattern_not_structural : forall name,
  matches_name_pattern name = true ->
  forallb (fun c => negb (structural_char c)) (list_ascii_of_string name) = true.
Proof.
  intros [|c s] H; [discriminate|].
  cbn [matches_name_pattern list_ascii_of_string forallb] in H |- *.
  apply andb_prop in H as [Hc Hs].
  now rewrite first_class_not_structural, rest_star_not_structural.
Qed.

(** X: a name [validate_prometheus_name] accepts is non-empty and holds none
    of the characters that delimit an exposition line. *)
Theorem accepted_name_has_no_structural_chars : forall name,
  validate_prometheus_name name = Returned tt ->
  name <> EmptyString
  /\ forallb (fun c => negb (structural_char c)) (list_ascii_of_string name) = true.
Proof.
  intros name H. rewrite validate_eq in H.
  destruct (matches_name_pattern name) eqn:Hm; [|discriminate].
  split; [intros ->; discriminate | now apply pattern_not_structural].
Qed.

(** ** Reading serialized labels back *)

Lemma structural_eq_false : forall c,
  structural_char c = false -> Ascii.eqb c "=" = false.
Proof.
  intros c H. unfold structural_char in H. cbn [existsb] in H.
  now apply orb_false_iff in H as [H _].
Qed.

Lemma read_key : forall k k0 acc rest,
  forallb (fun c => negb (structural_char c)) (list_ascii_of_string k) = true ->
  read_labels (InKey k0) acc (k ++ rest) = read_labels (InKey (k0 ++ k)) acc rest.
Proof.
  induction k as [|c k IH]; intros k0 acc rest H.
  - now rewrite string_app_nil_r.
  - cbn [list_ascii_of_string forallb] in H.
    apply andb_prop in H as [Hc Hk]. apply negb_true_iff in Hc.
    cbn [append read_labels]. rewrite (structural_eq_false c Hc).
    rewrite IH by exact Hk. unfold push. now rewrite string_app_assoc.
Qed.

Lemma read_value : forall v k v0 acc rest,
  read_labels (InValue k v0) acc (escape_label_value v ++ rest)
  = read_labels (InValue k (v0 ++ v)) acc rest.
Proof.
  induction v as [|c v IH]; intros k v0 acc rest.
  - now rewrite string_app_nil_r.
  - cbn [escape_label_value]. rewrite string_app_assoc. unfold escape_char.
    destruct (Ascii.eqb c backslash) eqn:Eb.
    { apply Ascii.eqb_eq in Eb; subst c. cbn. rewrite IH. unfold push.
      now rewrite string_app_assoc. }
    destruct (Ascii.eqb c newline) eqn:En.
    { apply Ascii.eqb_eq in En; subst c. cbn. rewrite IH. unfold push.
      now rewrite string_app_assoc. }
    destruct (Ascii.eqb c quote) eqn:Eq.
    { apply Ascii.eqb_eq in Eq; subst c. cbn. rewrite IH. unfold push.
      now rewrite string_app_assoc. }
    cbn [append read_labels]. rewrite Eb, Eq. rewrite IH. unfold push.
    now rewrite string_app_assoc.
Qed.

Lemma read_label : forall k v acc rest,
  matches_name_pattern k = true ->
  read_labels (InKey EmptyString) acc (render_label (k, v) ++ rest)
  = read_labels AfterValue (app acc [(k, v)]) rest.
Proof.
  intros k v acc rest Hk. unfold render_label. cbn [fst snd].
  rewrite !string_app_assoc, read_key by (now apply pattern_not_structural).
  cbn [append read_labels Ascii.eqb]. unfold dq. cbn [append read_labels].
  rewrite read_value. cbn [append read_labels]. reflexivity.
Qed.

Lemma read_rest : forall labels acc,
  valid_label_keys labels = true ->
  read_labels AfterValue acc
    (fold_right (fun kv a => "," ++ render_label kv ++ a) EmptyString labels)
  = Some (app acc labels).
Proof.
  induction labels as [|[k v] rest IH]; intros acc Hv.
  - now rewrite app_nil_r.
  - cbn in Hv. apply andb_prop in Hv as [Hk Hrest].
    cbn [fold_right append read_labels Ascii.eqb].
    change (String "," EmptyString) with ",". cbn [append].
    rewrite read_label by exact Hk. rewrite IH by exact Hrest.
    now rewrite <- app_assoc.
Qed.

Lemma read_encoded_labels : forall labels s,
  encode_labels labels = Returned s -> parse_labels s = Some labels.
Proof.
  intros labels s H. rewrite encode_labels_cases in H.
  destruct (valid_label_keys labels) eqn:Hv; [|discriminate].
  injection H as <-. destruct labels as [|[k v] rest]; [reflexivity|].
  cbn in Hv. apply andb_prop in Hv as [Hk Hrest].
  unfold render_labels, parse_labels. cbn [map]. rewrite concat_comma_cons, fold_right_comma_map.
  rewrite read_label by exact Hk. now apply read_rest.
Qed.

(** X: whatever [encode_labels] returns reads back, with the label reader of
    the exposition format, as the label list it was given. *)
Theorem encode_labels_reads_back : forall labels s,
  encode_labels labels = Returned s -> parse_labels s = Some labels.
Proof. exact read_encoded_labels. Qed.

(** X: two label lists that [encode_labels] turns into the same text are the
    same list: keys, values and order. *)
Theorem encode_labels_injective : forall l1 l2 s,
  encode_labels l1 = Returned s -> encode_labels l2 = Returned s -> l1 = l2.
Proof.
  intros l1 l2 s H1 H2.
  apply read_encoded_labels in H1, H2. rewrite H1 in H2. now injection H2.
Qed.

(** ** Serialized labels stay on one line *)

Lemma list_ascii_of_string_app : forall a b,
  list_ascii_of_string (a ++ b) = (list_ascii_of_string a ++ list_ascii_of_string b)%list.
Proof. induction a as [|c a IH]; intros b; cbn; [reflexivity | now rewrite IH]. Qed.

Lemma has_no_char_app : forall c a b,
  has_no_char c (a ++ b) = has_no_char c a && has_no_char c b.
Proof. intros. unfold has_no_char. now rewrite list_ascii_of_string_app, forallb_app. Qed.

Lemma forallb_impl : forall (f g : ascii -> bool) l,
  (forall c, f c = true -> g c = true) -> forallb f l = true -> forallb g l = true.
Proof.
  intros f g l Hfg. induction l as [|c l IH]; intros H; [reflexivity|].
  cbn in H |- *. apply andb_prop in H as [Hc Hl]. now rewrite Hfg, IH.
Qed.

Lemma key_no_newline : forall k,
  matches_name_pattern k = true -> has_no_char newline k = true.
Proof.
  intros k Hk. unfold has_no_char.
  apply (forallb_impl (fun c => negb (structural_char c))); [|now apply pattern_not_structural].
  intros c H. apply negb_true_iff in H. apply negb_true_iff.
  unfold structural_char in H. cbn [existsb] in H.
  repeat (apply orb_false_iff in H as [? H]). assumption.
Qed.

Lemma escape_no_newline : forall v, has_no_char newline (escape_label_value v) = true.
Proof.
  induction v as [|c v IH]; [reflexivity|].
  cbn [escape_label_value]. rewrite has_no_char_app, IH, andb_true_r.
  unfold escape_char.
  destruct (Ascii.eqb c backslash); [reflexivity|].
  destruct (Ascii.eqb c newline) eqn:En; [reflexivity|].
  destruct (Ascii.eqb c quote); [reflexivity|].
  unfold has_no_char. cbn. now rewrite En.
Qed.

Lemma render_label_no_newline : forall kv,
  matches_name_pattern (fst kv) = true -> has_no_char newline (render_label kv) = true.
Proof.
  intros [k v] Hk. unfold render_label. cbn [fst snd] in *.
  rewrite !has_no_char_app, key_no_newline, escape_no_newline by exact Hk. reflexivity.
Qed.

(** X: text returned by [encode_labels] never contains a newline, so a label
    set cannot split a sample line. *)
Theorem encode_labels_has_no_newline : forall labels s,
  encode_labels labels = Returned s -> has_no_char newline s = true.
Proof.
  intros labels s H. rewrite encode_labels_cases in H.
  destruct (valid_label_keys labels) eqn:Hv; [|discriminate].
  injection H as <-. destruct labels as [|kv rest]; [reflexivity|].
  cbn in Hv. apply andb_prop in Hv as [Hk Hrest].
  unfold render_labels. cbn [map]. rewrite concat_comma_cons, fold_right_comma_map.
  rewrite has_no_char_app, render_label_no_newline by exact Hk. cbn [andb].
  induction rest as [|kv' rest' IH]; [reflexivity|].
  cbn in Hrest. apply andb_prop in Hrest as [Hk' Hrest'].
  cbn [fold_right]. rewrite !has_no_char_app, render_label_no_newline by exact Hk'.
  now apply IH.
Qed.

(** X: [encode_labels] panics as soon as one key in the list is not a valid
    name, wherever it stands. *)
Theorem encode_labels_invalid_key_panics : forall labels,
  valid_label_keys labels = false -> encode_labels labels = Panicked.
Proof. intros labels H. now apply encode_labels_loop_invalid. Qed.

(** ** Builders and single values *)

(** X: [LabeledMetricsBuilder::value] returns the builder it was given and
    appends exactly one line, [name{labels} value now], to the writer. *)
Theorem value_appends_one_line : forall b labels v e b' e',
  value display_f64 b labels v e = Returned (b', e') ->
  b' = b /\ now_millis e' = now_millis e
  /\ writer e' = writer e ++ metrics_name b ++ "{" ++ render_labels labels ++ "} "
                 ++ FormattedValue display_f64 v ++ " " ++ display_i64 (now_millis e) ++ nl.
Proof.
  intros b labels v e b' e' H. rewrite value_eq in H.
  destruct (valid_label_keys labels); [|discriminate].
  injection H as <- <-. cbn [writer now_millis]. split; [reflexivity|]. split; [reflexivity|].
  unfold labeled_value_line. now rewrite !string_app_assoc.
Qed.

(** X: [LabeledMetricsBuilder::value] panics exactly when one of its label
    keys is not a valid name; the value itself never makes it fail. *)
Theorem value_panics_iff_invalid_key : forall b labels v e,
  value display_f64 b labels v e = Panicked <-> valid_label_keys labels = false.
Proof.
  intros b labels v e. rewrite value_eq.
  destruct (valid_label_keys labels); split; congruence.
Qed.

(** X: [LabeledHistogramBuilder::histogram] panics exactly when one of its
    label keys is not a valid name, whatever the buckets and the sum. *)
Theorem histogram_panics_iff_invalid_key : forall b labels buckets sum e,
  histogram display_f64 b labels buckets sum e = Panicked
  <-> valid_label_keys labels = false.
Proof.
  intros b labels buckets sum e. rewrite histogram_eq.
  destruct (valid_label_keys labels); split; congruence.
Qed.


(** X: [encode_counter] and [encode_gauge] write the HELP line, the TYPE line
    and one sample line [name value now], each ended by a newline. *)
Theorem single_value_output : forall typ name v help e e',
  encode_single_value display_f64 typ name v help e = Returned (tt, e') ->
  now_millis e' = now_millis e
  /\ writer e' = writer e ++ "# HELP " ++ name ++ " " ++ help ++ nl
                 ++ "# TYPE " ++ name ++ " " ++ typ ++ nl
                 ++ name ++ " " ++ FormattedValue display_f64 v ++ " "
                 ++ display_i64 (now_millis e) ++ nl.
Proof.
  intros typ name v help e e' H. rewrite encode_single_value_eq in H.
  destruct (matches_name_pattern name); [|discriminate].
  injection H as <-. cbn [writer now_millis]. split; [reflexivity|].
  unfold render_emitted, header_lines. cbn [app map emitted_text concat_lines].
  rewrite ?string_app_nil_r. normalize_app'. reflexivity.
Qed.

(** X: [encode_single_value] (behind [encode_counter] and [encode_gauge])
    panics exactly when the metric name is not valid. *)
Theorem single_value_panics_iff_invalid_name : forall typ name v help e,
  encode_single_value display_f64 typ name v help e = Panicked
  <-> matches_name_pattern name = false.
Proof.
  intros. rewrite encode_single_value_eq.
  destruct (matches_name_pattern name); split; congruence.
Qed.

(** X: [counter_vec], [gauge_vec] and [histogram_vec] write only the HELP and
    TYPE lines and return a builder holding the metric name. *)
Theorem vec_constructors_header_only : forall name help e,
  (forall b e', counter_vec name help e = Returned (b, e') ->
     metrics_name b = name
     /\ writer e' = writer e ++ "# HELP " ++ name ++ " " ++ help ++ nl
                    ++ "# TYPE " ++ name ++ " counter" ++ nl)
  /\ (forall b e', gauge_vec name help e = Returned (b, e') ->
     metrics_name b = name
     /\ writer e' = writer e ++ "# HELP " ++ name ++ " " ++ help ++ nl
                    ++ "# TYPE " ++ name ++ " gauge" ++ nl)
  /\ (forall b e', histogram_vec name help e = Returned (b, e') ->
     histogram_name b = name
     /\ writer e' = writer e ++ "# HELP " ++ name ++ " " ++ help ++ nl
                    ++ "# TYPE " ++ name ++ " histogram" ++ nl).
Proof.
  intros name help e.
  unfold counter_vec, gauge_vec, histogram_vec.
  split; [|split]; intros b e' H; rewrite header_then_builder_eq in H;
    (destruct (matches_name_pattern name); [|discriminate]);
    injection H as <- <-; cbn [writer metrics_name histogram_name]; split; try reflexivity;
    unfold render_emitted, header_lines; cbn [map emitted_text concat_lines];
    now rewrite ?string_app_assoc, ?string_app_nil_r.
Qed.

(** X: [encode_histogram] writes the HELP and TYPE lines followed by the
    unlabeled histogram lines. *)
Theorem encode_histogram_output : forall name buckets sum help e e',
  encode_histogram display_f64 name buckets sum help e = Returned (tt, e') ->
  now_millis e' = now_millis e
  /\ writer e' = writer e ++ "# HELP " ++ name ++ " " ++ help ++ nl
                 ++ "# TYPE " ++ name ++ " histogram" ++ nl
                 ++ concat_lines (histogram_lines display_f64 name [] buckets sum (now_millis e)).
Proof.
  intros name buckets sum help e e' H.
  unfold encode_histogram, histogram_vec, bind at 1 in H.
  rewrite header_then_builder_eq in H.
  destruct (matches_name_pattern name); [|discriminate].
  unfold bind in H. rewrite histogram_eq in H. cbn [valid_label_keys forallb] in H.
  unfold ret in H. injection H as <-. cbn [writer now_millis histogram_name].
  split; [reflexivity|].
  unfold render_emitted, header_lines. cbn [map emitted_text concat_lines].
  now rewrite ?string_app_assoc.
Qed.

(** ** A whole encoding pass *)

Lemma run_call_eq : forall c e,
  run_call display_f64 c e
  = if call_valid c
    then Returned (tt, mkEncoder (writer e ++ render_emitted
                                   (call_lines display_f64 c (now_millis e)))
                                 (now_millis e))
    else Panicked.
Proof.
  intros [name v help | name v help | name buckets sum help
         | name help obs | name help obs | name help obs] e;
    cbn [run_call call_lines call_valid].
  - unfold encode_counter. now rewrite encode_single_value_eq.
  - unfold encode_gauge. now rewrite encode_single_value_eq.
  - unfold encode_histogram, histogram_vec, bind at 1.
    rewrite header_then_builder_eq.
    destruct (matches_name_pattern name); [|reflexivity].
    unfold bind. rewrite histogram_eq. cbn [valid_label_keys forallb].
    unfold ret. cbn [writer now_millis histogram_name].
    rewrite render_emitted_app, render_emitted_samples. now rewrite string_app_assoc.
  - unfold counter_vec, bind at 1. rewrite header_then_builder_eq.
    destruct (matches_name_pattern name); [|reflexivity]. cbn [andb].
    unfold bind. rewrite values_eq.
    destruct (forallb _ obs); [|reflexivity].
    unfold ret. cbn [writer now_millis metrics_name].
    rewrite render_emitted_app. now rewrite string_app_assoc.
  - unfold gauge_vec, bind at 1. rewrite header_then_builder_eq.
    destruct (matches_name_pattern name); [|reflexivity]. cbn [andb].
    unfold bind. rewrite values_eq.
    destruct (forallb _ obs); [|reflexivity].
    unfold ret. cbn [writer now_millis metrics_name].
    rewrite render_emitted_app. now rewrite string_app_assoc.
  - unfold histogram_vec, bind at 1. rewrite header_then_builder_eq.
    destruct (matches_name_pattern name); [|reflexivity]. cbn [andb].
    unfold bind. rewrite histograms_eq.
    destruct (forallb _ obs); [|reflexivity].
    unfold ret. cbn [writer now_millis histogram_name].
    rewrite render_emitted_app. now rewrite string_app_assoc.
Qed.

(** X: a pass of encoder calls either panics, exactly when some call passes an
    invalid metric name or label key, or appends the lines of every call in
    call order to what the writer already held, keeping the timestamp. *)
Theorem run_pass_cases : forall calls e,
  run_pass display_f64 calls e
  = if forallb call_valid calls
    then Returned (tt, mkEncoder (writer e ++ render_emitted
                                   (pass_lines display_f64 calls (now_millis e)))
                                 (now_millis e))
    else Panicked.
Proof.
  induction calls as [|c rest IH]; intros e.
  - cbn. unfold pass_lines. cbn. rewrite string_app_nil_r. now destruct e.
  - cbn [run_pass forallb]. unfold bind. rewrite run_call_eq.
    destruct (call_valid c); [|reflexivity]. cbn [andb].
    rewrite IH. cbn [writer now_millis].
    destruct (forallb call_valid rest); [|reflexivity].
    unfold pass_lines. cbn [flat_map].
    now rewrite render_emitted_app, string_app_assoc.
Qed.

End Extras.

(** * Examples, witnesses and counterexamples *)

Example scenario3 :
  histogram exact_display_f64 (mkHistogramBuilder "h") [] scenario3_buckets 7.5
    (new EmptyString 2000)
  = Returned (mkHistogramBuilder "h", new scenario3_output 2000).
Proof. reflexivity. Qed.

Example scenario2 :
  value exact_display_f64 (mkMetricsBuilder "errors") [("code", "500")] 3 (new EmptyString 7)
  = Returned (mkMetricsBuilder "errors",
              new ("errors{code=" ++ dq ++ "500" ++ dq ++ "} 3 7" ++ nl) 7).
Proof. reflexivity. Qed.

Example scenario4 :
  encode_labels [("msg", "say " ++ dq ++ "hi" ++ dq)]
  = Returned ("msg=" ++ dq ++ "say \" ++ dq ++ "hi\" ++ dq ++ dq).
Proof. reflexivity. Qed.

Example scenario5 :
  validate_prometheus_name "2xx" = Panicked
  /\ validate_prometheus_name "_ok" = Returned tt
  /\ validate_prometheus_name "Ok_1" = Returned tt
  /\ validate_prometheus_name EmptyString = Panicked
  /\ validate_prometheus_name "a b" = Panicked
  /\ validate_prometheus_name (String "195" (String "169" EmptyString)) = Panicked.
Proof. repeat split. Qed.

Lemma histogram_final_bucket_and_count_are_total_witness :
  exists (earlier : list string) (le : string),
    writer (new scenario3_output 2000) = writer (new EmptyString 2000) ++ concat_lines (earlier ++
      [bucket_line exact_display_f64 "h" [] le (sum_counts scenario3_buckets) 2000;
       summary_line "h" "_sum" [] (FormattedValue exact_display_f64 7.5) 2000;
       summary_line "h" "_count" [] (FormattedValue exact_display_f64 (sum_counts scenario3_buckets)) 2000])%list.
Proof.
  apply (histogram_final_bucket_and_count_are_total exact_display_f64 (mkHistogramBuilder "h")
           [] scenario3_buckets 7.5 (new EmptyString 2000) (mkHistogramBuilder "h")
           (new scenario3_output 2000)).
  reflexivity.
Defined.

Lemma histogram_synthesized_inf_bucket_witness :
  List.length (cumulative_bucket_lines exact_display_f64 "h" [] 2000 scenario3_buckets 0)
  = List.length scenario3_buckets.
Proof.
  apply (histogram_synthesized_inf_bucket exact_display_f64 (mkHistogramBuilder "h")
           [] scenario3_buckets 7.5 (new EmptyString 2000) (mkHistogramBuilder "h")
           (new scenario3_output 2000)).
  reflexivity.
Defined.

Lemma histogram_unlabeled_braces_counterexample :
  exists e',
    histogram exact_display_f64 (mkHistogramBuilder "h") [] [] 0 (new EmptyString 0)
    = Returned (mkHistogramBuilder "h", e')
    /\ writer e' = concat_lines ["h_bucket{le=" ++ dq ++ "+Inf" ++ dq ++ "} 0 0";
                                 "h_sum 0 0"; "h_count 0 0"]
    /\ String.index 0 "{" (writer e') = Some 8.
Proof. eexists. split; [reflexivity|]. split; reflexivity. Qed.

Lemma FormattedValue_cases_witness :
  FormattedValue exact_display_f64 7.5 = "7.5".
Proof.
  apply (proj1 (proj2 (proj2 (proj2 (FormattedValue_cases exact_display_f64)))) 7.5%float).
  reflexivity.
Defined.

Lemma validate_prometheus_name_pattern_witness :
  validate_prometheus_name "2xx" = Panicked.
Proof.
  apply (proj2 (proj2 (validate_prometheus_name_pattern "2xx"))). reflexivity.
Defined.

Lemma label_value_escape_roundtrip_witness :
  encode_labels [("k", backslash_quote_newline)]
  = Returned ("k" ++ "=" ++ dq ++ escape_label_value backslash_quote_newline ++ dq)
  /\ unescape_label_value (escape_label_value backslash_quote_newline)
     = Some backslash_quote_newline.
Proof. apply (label_value_escape_roundtrip "k" backslash_quote_newline). reflexivity. Defined.

Lemma encode_labels_in_given_order_witness :
  encode_labels [("b", "1"); ("a", "2"); ("b", "3")]
  = Returned (String.concat "," (map render_label [("b", "1"); ("a", "2"); ("b", "3")])).
Proof. apply (encode_labels_in_given_order [("b", "1"); ("a", "2"); ("b", "3")]). reflexivity. Defined.

Lemma encode_counter_requests_total_witness :
  encode_counter exact_display_f64 "requests_total" 42 "Total requests" (new EmptyString 1000)
  = Returned (tt, new ("# HELP requests_total Total requests" ++ nl
                       ++ "# TYPE requests_total counter" ++ nl
                       ++ "requests_total 42 1000" ++ nl) 1000).
Proof. apply (encode_counter_requests_total exact_display_f64). reflexivity. Defined.

Lemma pass_timestamp_fixed_witness :
  Forall (stamped_with 1000)
    (pass_lines exact_display_f64
       [CallCounter "requests_total" 42 "Total requests";
        CallHistogram "h" scenario3_buckets 7.5 "help"] 1000).
Proof.
  apply (pass_timestamp_fixed exact_display_f64
           [CallCounter "requests_total" 42 "Total requests";
            CallHistogram "h" scenario3_buckets 7.5 "help"] EmptyString 1000
           (new (scenario1_output ++ "# HELP h help" ++ nl ++ "# TYPE h histogram" ++ nl
                 ++ concat_lines ["h_bucket{le=" ++ dq ++ "1" ++ dq ++ "} 2 1000";
                                  "h_bucket{le=" ++ dq ++ "5" ++ dq ++ "} 5 1000";
                                  "h_bucket{le=" ++ dq ++ "+Inf" ++ dq ++ "} 5 1000";
                                  "h_sum 7.5 1000"; "h_count 5 1000"]) 1000)).
  reflexivity.
Defined.

Lemma accepted_name_has_no_structural_chars_witness :
  "http_requests_total" <> EmptyString
  /\ forallb (fun c => negb (structural_char c))
       (list_ascii_of_string "http_requests_total") = true.
Proof. apply (accepted_name_has_no_structural_chars "http_requests_total"). reflexivity. Defined.

Lemma encode_labels_reads_back_witness :
  parse_labels (render_labels [("method", "GET"); ("path", backslash_quote_newline)])
  = Some [("method", "GET"); ("path", backslash_quote_newline)].
Proof.
  apply (encode_labels_reads_back [("method", "GET"); ("path", backslash_quote_newline)]).
  reflexivity.
Defined.

Lemma encode_labels_injective_witness :
  [("method", "GET"); ("path", backslash_quote_newline)]
  = [("method", "GET"); ("path", backslash_quote_newline)].
Proof.
  apply (encode_labels_injective [("method", "GET"); ("path", backslash_quote_newline)]
           [("method", "GET"); ("path", backslash_quote_newline)]
           (render_labels [("method", "GET"); ("path", backslash_quote_newline)]));
    reflexivity.
Defined.

Lemma encode_labels_has_no_newline_witness :
  has_no_char newline (render_labels [("path", backslash_quote_newline)]) = true.
Proof.
  apply (encode_labels_has_no_newline [("path", backslash_quote_newline)]). reflexivity.
Defined.

Lemma encode_labels_invalid_key_panics_witness :
  encode_labels [("ok", "1"); ("2xx", "2")] = Panicked.
Proof. apply encode_labels_invalid_key_panics. reflexivity. Defined.

Lemma value_appends_one_line_witness :
  mkMetricsBuilder "http_requests" = mkMetricsBuilder "http_requests"
  /\ now_millis (new ("http_requests{code=" ++ dq ++ "200" ++ dq ++ "} 3 1000" ++ nl) 1000)
     = now_millis (new EmptyString 1000)
  /\ writer (new ("http_requests{code=" ++ dq ++ "200" ++ dq ++ "} 3 1000" ++ nl) 1000)
     = writer (new EmptyString 1000) ++ metrics_name (mkMetricsBuilder "http_requests")
       ++ "{" ++ render_labels [("code", "200")] ++ "} "
       ++ FormattedValue exact_display_f64 3 ++ " "
       ++ display_i64 (now_millis (new EmptyString 1000)) ++ nl.
Proof.
  apply (value_appends_one_line exact_display_f64 (mkMetricsBuilder "http_requests")
           [("code", "200")] 3%float (new EmptyString 1000)).
  reflexivity.
Defined.

Lemma value_panics_iff_invalid_key_witness :
  value exact_display_f64 (mkMetricsBuilder "m") [("bad key", "1")] 1%float
    (new EmptyString 0) = Panicked.
Proof. apply (proj2 (value_panics_iff_invalid_key exact_display_f64 _ _ _ _)). reflexivity. Defined.

Lemma histogram_panics_iff_invalid_key_witness :
  histogram exact_display_f64 (mkHistogramBuilder "h") [("le-x", "1")] scenario3_buckets
    7.5%float (new EmptyString 0) = Panicked.
Proof.
  apply (proj2 (histogram_panics_iff_invalid_key exact_display_f64 _ _ _ _ _)). reflexivity.
Defined.


Lemma single_value_output_witness :
  now_millis (new ("# HELP temperature Temp" ++ nl ++ "# TYPE temperature gauge" ++ nl
                   ++ "temperature 21.5 5" ++ nl) 5) = now_millis (new EmptyString 5)
  /\ writer (new ("# HELP temperature Temp" ++ nl ++ "# TYPE temperature gauge" ++ nl
                  ++ "temperature 21.5 5" ++ nl) 5)
     = writer (new EmptyString 5) ++ "# HELP " ++ "temperature" ++ " " ++ "Temp" ++ nl
       ++ "# TYPE " ++ "temperature" ++ " " ++ "gauge" ++ nl
       ++ "temperature" ++ " " ++ FormattedValue exact_display_f64 21.5 ++ " "
       ++ display_i64 (now_millis (new EmptyString 5)) ++ nl.
Proof.
  apply (single_value_output exact_display_f64 "gauge" "temperature" 21.5%float "Temp"
           (new EmptyString 5)).
  reflexivity.
Defined.

Lemma single_value_panics_iff_invalid_name_witness :
  encode_single_value exact_display_f64 "gauge" "2xx" 1%float "h" (new EmptyString 0)
  = Panicked.
Proof.
  apply (proj2 (single_value_panics_iff_invalid_name exact_display_f64 _ _ _ _ _)).
  reflexivity.
Defined.

Lemma vec_constructors_header_only_witness :
  metrics_name (mkMetricsBuilder "jobs") = "jobs"
  /\ writer (new ("# HELP jobs Jobs" ++ nl ++ "# TYPE jobs counter" ++ nl) 0)
     = writer (new EmptyString 0) ++ "# HELP " ++ "jobs" ++ " " ++ "Jobs" ++ nl
       ++ "# TYPE " ++ "jobs" ++ " counter" ++ nl.
Proof.
  destruct (vec_constructors_header_only "jobs" "Jobs" (new EmptyString 0)) as [Hc _].
  apply Hc. reflexivity.
Defined.

Lemma encode_histogram_output_witness :
  now_millis (new ("# HELP h help" ++ nl ++ "# TYPE h histogram" ++ nl ++ scenario3_output) 2000)
  = now_millis (new EmptyString 2000)
  /\ writer (new ("# HELP h help" ++ nl ++ "# TYPE h histogram" ++ nl ++ scenario3_output) 2000)
     = writer (new EmptyString 2000) ++ "# HELP " ++ "h" ++ " " ++ "help" ++ nl
       ++ "# TYPE " ++ "h" ++ " histogram" ++ nl
       ++ concat_lines (histogram_lines exact_display_f64 "h" [] scenario3_buckets 7.5
                          (now_millis (new EmptyString 2000))).
Proof.
  apply (encode_histogram_output exact_display_f64 "h" scenario3_buckets 7.5%float "help"
           (new EmptyString 2000)).
  reflexivity.
Defined.
